(** * moveit2_grasps: the grasp-filter demo launch file and the filter pipeline

    Part 1 ([Module Launch]) is a shallow embedding of
    [launch/grasp_filter_demo.launch.py]: [load_file], [load_yaml] and
    [generate_launch_description], over an explicit description of the
    platform calls the file makes (package index, file system, PyYAML and the
    launch_ros [Node] constructor).

    Part 2 ([Module FilterPipeline]) models the filtering engine the demo
    node runs; its code is not part of the launch file, so it is taken from
    the design document. *)

From stdpp Require Import gmap strings list.

Open Scope string_scope.

#[local] Set Warnings "-register-all".

(* ===================================================================== *)
(** * Part 1: launch/grasp_filter_demo.launch.py                          *)
(* ===================================================================== *)

Module Launch.

(** ** Python values, exceptions and results *)

(** The Python objects that travel through the launch file: [None], the
    string read from a file, the literals of the parameter dictionaries and
    whatever [yaml.safe_load] builds.  Dictionaries are keyed by strings, as
    ROS parameter dictionaries are; a float is kept by its text. *)
Inductive value : Type :=
| VNone
| VBool (b : bool)
| VInt (z : Z)
| VFloat (repr : string)
| VStr (s : string)
| VList (l : list value)
| VDict (d : gmap string value).

(** Exception classes.  In Python 3 [EnvironmentError] and [IOError] are
    aliases of [OSError]; [FileNotFoundError], [PermissionError] and
    [IsADirectoryError] are subclasses, told apart here by [errno].
    [PackageNotFoundError] derives from [KeyError], [UnicodeDecodeError]
    from [ValueError] and [YAMLError] from [Exception]. *)
Inductive exn : Type :=
| OSError (errno : string)
| PackageNotFoundError (package_name : string)
| UnicodeDecodeError
| YAMLError (problem : string)
| TypeError (msg : string)
| ValueError (msg : string).

Definition is_EnvironmentError (e : exn) : bool :=
  match e with
  | OSError _ => true
  | _ => false
  end.

(** A call either returns or raises. *)
Inductive result (A : Type) : Type :=
| Ok (a : A)
| Raise (e : exn).
Arguments Ok {A} a.
Arguments Raise {A} e.

#[export] Instance result_ret : MRet result := fun A a => Ok a.
#[export] Instance result_bind : MBind result := fun A B f m =>
  match m with
  | Ok a => f a
  | Raise e => Raise e
  end.

(** [try: body  except C: handler], where [catches] decides
    [isinstance(e, C)]. *)
Definition try_except {A} (body : result A) (catches : exn -> bool)
    (handler : result A) : result A :=
  match body with
  | Ok a => Ok a
  | Raise e => if catches e then handler else Raise e
  end.

(** ** The platform the launch file calls into *)

(** An open text file, as far as the launch file uses it: the text its
    reads deliver and, when reading does not reach the end of the file, the
    exception the next read raises (an I/O or a decoding error). *)
Record TextIO : Type := {
  delivered : string;
  failure : option exn;
}.

(** [file.read()]: the whole text, or the exception of the failing read. *)
Definition read (file : TextIO) : result string :=
  match failure file with
  | None => Ok (delivered file)
  | Some e => Raise e
  end.

(** The launch_ros [Node] action, by its keyword arguments. *)
Record Node : Type := {
  name : string;
  package : string;
  executable : string;
  output : string;
  parameters : list value;
}.

(** [launch.LaunchDescription(entities)]. *)
Record LaunchDescription : Type := { entities : list Node }.

(** None of these is code of this repository, so each is a parameter:
    - [get_package_share_directory] of ament_index_python (raises
      [PackageNotFoundError] for a package that is not installed);
    - [os.path.join];
    - [open(path, "r")];
    - [yaml.safe_load(stream)]: PyYAML pulls the stream in chunks as its
      parser asks for them, so on a stream whose reading fails it raises
      either that failure or a syntax error it found in the text delivered
      before; what it does is a function of the stream;
    - the argument checking of the [Node] constructor: [Some e] when it
      raises [e], [None] when it returns the action. *)
Record World : Type := {
  get_package_share_directory : string -> result string;
  os_path_join : string -> string -> string;
  open_r : string -> result TextIO;
  yaml_safe_load : TextIO -> result value;
  Node_raises : Node -> option exn;
}.

(** The document [yaml.safe_load] builds from a stream that delivers [text]
    and ends. *)
Definition yaml_parse (w : World) (text : string) : result value :=
  yaml_safe_load w {| delivered := text; failure := None |}.

(** [Node(name=..., ...)] *)
Definition Node_new (w : World) (args : Node) : result Node :=
  match Node_raises w args with
  | Some e => Raise e
  | None => Ok args
  end.

(** ** The functions of the launch file *)

Definition load_file (w : World) (package_name file_path : string) : result value :=
  package_path ← get_package_share_directory w package_name;
  let absolute_file_path := os_path_join w package_path file_path in
  try_except
    (file ← open_r w absolute_file_path;
     text ← read file;
     mret (VStr text))
    is_EnvironmentError
    (mret VNone).

Definition load_yaml (w : World) (package_name file_path : string) : result value :=
  package_path ← get_package_share_directory w package_name;
  let absolute_file_path := os_path_join w package_path file_path in
  try_except
    (file ← open_r w absolute_file_path;
     yaml_safe_load w file)
    is_EnvironmentError
    (mret VNone).

Definition generate_launch_description (w : World) : result LaunchDescription :=
  (* planning_context *)
  robot_description_config ←
    load_file w "moveit_resources_panda_description" "urdf/panda.urdf";
  let robot_description : gmap string value :=
    {[ "robot_description" := robot_description_config ]} in
  robot_description_semantic_config ←
    load_file w "moveit_resources_panda_moveit_config" "config/panda.srdf";
  let robot_description_semantic : gmap string value :=
    {[ "robot_description_semantic" := robot_description_semantic_config ]} in
  kinematics_yaml ←
    load_yaml w "moveit_resources_panda_moveit_config" "config/kinematics.yaml";
  let gripper : gmap string value := {[ "gripper" := VStr "two_finger" ]} in
  let ee_group_name : gmap string value := {[ "ee_group_name" := VStr "hand" ]} in
  let planning_group_name : gmap string value :=
    {[ "planning_group_name" := VStr "panda_arm" ]} in
  let statistics_verbose : gmap string value :=
    {[ "moveit_grasps/filter/statistics_verbose" := VBool true ]} in
  let show_filtered_grasps : gmap string value :=
    {[ "moveit_grasps/filter/show_filtered_grasps" := VBool true ]} in
  let show_cutting_planes : gmap string value :=
    {[ "moveit_grasps/filter/show_cutting_planes" := VBool true ]} in
  let show_grasp_filter_collision_if_failed : gmap string value :=
    {[ "moveit_grasps/filter/show_grasp_filter_collision_if_failed" := VBool true ]} in
  let show_filtered_arm_solutions : gmap string value :=
    {[ "moveit_grasps/filter/show_filtered_arm_solutions" := VBool true ]} in
  panda_grasp_data_yaml ←
    load_yaml w "moveit_grasps" "config_robot/panda_grasp_data.yaml";
  moveit_grasps_config_yaml ←
    load_yaml w "moveit_grasps" "config/moveit_grasps_config.yaml";
  (* MoveGroupInterface demo executable *)
  grasps_demo ← Node_new w {|
    name := "moveit_generator_demo";
    package := "moveit_grasps";
    executable := "moveit_grasps_grasp_filter_demo";
    output := "screen";
    parameters := [
      VDict robot_description;
      VDict robot_description_semantic;
      kinematics_yaml;
      VDict gripper;
      VDict ee_group_name;
      VDict planning_group_name;
      VDict statistics_verbose;
      VDict show_filtered_grasps;
      VDict show_cutting_planes;
      VDict show_grasp_filter_collision_if_failed;
      VDict show_filtered_arm_solutions;
      panda_grasp_data_yaml;
      moveit_grasps_config_yaml
    ];
  |};
  mret {| entities := [grasps_demo] |}.

(** ** Reading the parameter list *)

(** The [(name, value)] entries of one element of a parameter list: those
    of the dictionary when it is one, none otherwise. *)
Definition dict_items (v : value) : list (string * value) :=
  match v with
  | VDict d => map_to_list d
  | _ => []
  end.

(** The parameter names a parameter list defines at its top level. *)
Definition param_names (ps : list value) : list string :=
  (flat_map dict_items ps).*1.

Definition slash : Ascii.ascii := Ascii.ascii_of_nat 47.

Fixpoint has_slash (s : string) : bool :=
  match s with
  | EmptyString => false
  | String c s' => if Ascii.eqb c slash then true else has_slash s'
  end.

(** The last component of a [/]-separated parameter name. *)
Fixpoint basename (s : string) : string :=
  match s with
  | EmptyString => EmptyString
  | String c s' =>
      if Ascii.eqb c slash then basename s'
      else if has_slash s' then basename s' else s
  end.

Definition is_show_name (key : string) : bool :=
  String.prefix "show_" (basename key).

(** The [show_*] entries of a parameter list. *)
Definition show_params (ps : list value) : list (string * value) :=
  List.filter (fun kv => is_show_name kv.1) (flat_map dict_items ps).

(** The keyword arguments of the [Node(...)] call of
    [generate_launch_description], as a function of what its five loads
    returned (see [generate_launch_description_unfold]). *)
Definition grasps_demo_args (robot_description_config robot_description_semantic_config
    kinematics_yaml panda_grasp_data_yaml moveit_grasps_config_yaml : value) : Node :=
  {| name := "moveit_generator_demo";
     package := "moveit_grasps";
     executable := "moveit_grasps_grasp_filter_demo";
     output := "screen";
     parameters := [
       VDict {[ "robot_description" := robot_description_config ]};
       VDict {[ "robot_description_semantic" := robot_description_semantic_config ]};
       kinematics_yaml;
       VDict {[ "gripper" := VStr "two_finger" ]};
       VDict {[ "ee_group_name" := VStr "hand" ]};
       VDict {[ "planning_group_name" := VStr "panda_arm" ]};
       VDict {[ "moveit_grasps/filter/statistics_verbose" := VBool true ]};
       VDict {[ "moveit_grasps/filter/show_filtered_grasps" := VBool true ]};
       VDict {[ "moveit_grasps/filter/show_cutting_planes" := VBool true ]};
       VDict {[ "moveit_grasps/filter/show_grasp_filter_collision_if_failed" := VBool true ]};
       VDict {[ "moveit_grasps/filter/show_filtered_arm_solutions" := VBool true ]};
       panda_grasp_data_yaml;
       moveit_grasps_config_yaml
     ] |}.

(** The five loads and the [Node] call all returned. *)
Definition loaded (w : World) (rd rds k g m : value) : Prop :=
  load_file w "moveit_resources_panda_description" "urdf/panda.urdf" = Ok rd
  ∧ load_file w "moveit_resources_panda_moveit_config" "config/panda.srdf" = Ok rds
  ∧ load_yaml w "moveit_resources_panda_moveit_config" "config/kinematics.yaml" = Ok k
  ∧ load_yaml w "moveit_grasps" "config_robot/panda_grasp_data.yaml" = Ok g
  ∧ load_yaml w "moveit_grasps" "config/moveit_grasps_config.yaml" = Ok m
  ∧ Node_raises w (grasps_demo_args rd rds k g m) = None.

(** The four [show_*] flags the launch file sets, and their namespace. *)
Definition filter_namespace : string := "moveit_grasps/filter/".

Definition namespaced (flag : string) : string := filter_namespace ++ flag.

Definition show_flags : list string :=
  ["show_filtered_grasps"; "show_cutting_planes";
   "show_grasp_filter_collision_if_failed"; "show_filtered_arm_solutions"].

(** The package is installed, and [open] on the file raises an
    [EnvironmentError] (the file is missing, unreadable, a directory). *)
Definition cannot_open (w : World) (package_name file_path : string) : Prop :=
  ∃ dir e,
    get_package_share_directory w package_name = Ok dir
    ∧ open_r w (os_path_join w dir file_path) = Raise e
    ∧ is_EnvironmentError e = true.

(** The package is installed, the file opens and reads as [text]. *)
Definition opens_with_text (w : World) (package_name file_path text : string) : Prop :=
  ∃ dir file,
    get_package_share_directory w package_name = Ok dir
    ∧ open_r w (os_path_join w dir file_path) = Ok file
    ∧ read file = Ok text.

(** The two model files: the robot description (URDF) and the semantic
    description (SRDF), as [generate_launch_description] names them. *)
Definition model_file (semantic : bool) : string * string :=
  if semantic
  then ("moveit_resources_panda_moveit_config", "config/panda.srdf")
  else ("moveit_resources_panda_description", "urdf/panda.urdf").

(** ** Concrete platforms *)

(** [posixpath.join] for two components. *)
Definition posix_join (a b : string) : string :=
  if String.prefix "/" b then b
  else if decide (a = "") then b
  else if has_slash (String.substring (String.length a - 1) 1 a) then a ++ b
  else a ++ "/" ++ b.

(** A finite platform: the installed packages with their share
    directories, the readable files with their text, the YAML documents
    with the value PyYAML builds from them (the empty document is [None]),
    and whether the [Node] constructor refuses a [None] parameter.  Every
    file of a disk reads to its end. *)
Record Disk : Type := {
  packages : gmap string string;
  files : gmap string string;
  documents : gmap string value;
  Node_refuses_None : bool;
}.

Definition has_None_entry (ps : list value) : bool :=
  existsb (fun kv => match kv.2 with VNone => true | _ => false end)
          (flat_map dict_items ps)
  || existsb (fun v => match v with VNone => true | _ => false end) ps.

Definition disk_world (d : Disk) : World := {|
  get_package_share_directory p :=
    match packages d !! p with
    | Some dir => Ok dir
    | None => Raise (PackageNotFoundError p)
    end;
  os_path_join := posix_join;
  open_r path :=
    match files d !! path with
    | Some text => Ok {| delivered := text; failure := None |}
    | None => Raise (OSError "ENOENT")
    end;
  yaml_safe_load file :=
    match failure file with
    | Some e => Raise e
    | None =>
        if decide (delivered file = "") then Ok VNone
        else match documents d !! delivered file with
             | Some v => Ok v
             | None => Raise (YAMLError "could not parse the document")
             end
    end;
  Node_raises n :=
    if Node_refuses_None d && has_None_entry (parameters n)
    then Some (TypeError "Unexpected type for parameter value None")
    else None;
|}.

Definition panda_packages : gmap string string :=
  list_to_map [
    ("moveit_resources_panda_description", "/share/moveit_resources_panda_description");
    ("moveit_resources_panda_moveit_config", "/share/moveit_resources_panda_moveit_config");
    ("moveit_grasps", "/share/moveit_grasps")
  ].

(** The three packages are installed, none of the five files exists. *)
Definition bare_disk : Disk := {|
  packages := panda_packages;
  files := ∅;
  documents := ∅;
  Node_refuses_None := false;
|}.

(** As [bare_disk], with an empty [panda_grasp_data.yaml]. *)
Definition empty_yaml_disk : Disk := {|
  packages := panda_packages;
  files := {[ "/share/moveit_grasps/config_robot/panda_grasp_data.yaml" := "" ]};
  documents := ∅;
  Node_refuses_None := false;
|}.

(** All five files are there. *)
Definition full_disk : Disk := {|
  packages := panda_packages;
  files := list_to_map [
    ("/share/moveit_resources_panda_description/urdf/panda.urdf", "<robot name='panda'/>");
    ("/share/moveit_resources_panda_moveit_config/config/panda.srdf", "<robot name='panda'/>");
    ("/share/moveit_resources_panda_moveit_config/config/kinematics.yaml", "panda_arm: {}");
    ("/share/moveit_grasps/config_robot/panda_grasp_data.yaml", "hand: {}");
    ("/share/moveit_grasps/config/moveit_grasps_config.yaml", "moveit_grasps: {}")
  ];
  documents := list_to_map [
    ("panda_arm: {}", VDict {[ "panda_arm" := VDict ∅ ]});
    ("hand: {}", VDict {[ "hand" := VDict ∅ ]});
    ("moveit_grasps: {}", VDict {[ "moveit_grasps" := VDict ∅ ]})
  ];
  Node_refuses_None := true;
|}.

(** As [full_disk] without the URDF. *)
Definition missing_urdf_disk : Disk := {|
  packages := panda_packages;
  files := delete "/share/moveit_resources_panda_description/urdf/panda.urdf" (files full_disk);
  documents := documents full_disk;
  Node_refuses_None := true;
|}.

(** Nothing is installed. *)
Definition blank_disk : Disk := {|
  packages := ∅;
  files := ∅;
  documents := ∅;
  Node_refuses_None := false;
|}.

(** What [generate_launch_description] returns on [full_disk]. *)
Definition full_disk_launch : LaunchDescription :=
  {| entities := [
       grasps_demo_args (VStr "<robot name='panda'/>") (VStr "<robot name='panda'/>")
         (VDict {[ "panda_arm" := VDict ∅ ]})
         (VDict {[ "hand" := VDict ∅ ]})
         (VDict {[ "moveit_grasps" := VDict ∅ ]}) ] |}.

(** ** More about the loaders *)

(** What [load_yaml] makes of the value [load_file] returns for the same
    file: the text is parsed inside the [try], nothing is parsed when there
    is no text. *)
Definition parse_loaded (w : World) (v : value) : result value :=
  match v with
  | VStr text => try_except (yaml_parse w text) is_EnvironmentError (mret VNone)
  | _ => mret VNone
  end.

(** The packages [generate_launch_description] looks up, and the files it
    loads from them, in the order of the source. *)
Definition launch_packages : list string :=
  ["moveit_resources_panda_description"; "moveit_resources_panda_moveit_config";
   "moveit_grasps"].

Definition config_files : list (string * string) :=
  [("moveit_resources_panda_description", "urdf/panda.urdf");
   ("moveit_resources_panda_moveit_config", "config/panda.srdf");
   ("moveit_resources_panda_moveit_config", "config/kinematics.yaml");
   ("moveit_grasps", "config_robot/panda_grasp_data.yaml");
   ("moveit_grasps", "config/moveit_grasps_config.yaml")].

(** Two platforms that differ at most in what [open] does on paths other
    than those of [files]. *)
Definition agree_on (files : list (string * string)) (w w' : World) : Prop :=
  (∀ p, get_package_share_directory w p = get_package_share_directory w' p)
  ∧ (∀ a b, os_path_join w a b = os_path_join w' a b)
  ∧ (∀ file, yaml_safe_load w file = yaml_safe_load w' file)
  ∧ (∀ n, Node_raises w n = Node_raises w' n)
  ∧ (∀ package_name file_path dir,
       (package_name, file_path) ∈ files ->
       get_package_share_directory w package_name = Ok dir ->
       open_r w (os_path_join w dir file_path) = open_r w' (os_path_join w dir file_path)).

(** The five loads of [generate_launch_description], in the order it makes
    them, and the first exception among the results of a sequence of
    calls. *)
Definition launch_loads (w : World) : list (result value) :=
  [load_file w "moveit_resources_panda_description" "urdf/panda.urdf";
   load_file w "moveit_resources_panda_moveit_config" "config/panda.srdf";
   load_yaml w "moveit_resources_panda_moveit_config" "config/kinematics.yaml";
   load_yaml w "moveit_grasps" "config_robot/panda_grasp_data.yaml";
   load_yaml w "moveit_grasps" "config/moveit_grasps_config.yaml"].

Fixpoint first_raise {A} (rs : list (result A)) : option exn :=
  match rs with
  | [] => None
  | Ok _ :: rs' => first_raise rs'
  | Raise e :: _ => Some e
  end.

(** The [Node] constructor refuses a parameter dictionary that gives a
    parameter the value [None] (launch_ros normalises the parameters when
    the action is constructed and raises [TypeError] for such a value). *)
Definition refuses_None_values (w : World) : Prop :=
  ∀ (n : Node) (d : gmap string value) (key : string),
    VDict d ∈ parameters n -> d !! key = Some VNone -> Node_raises w n ≠ None.

(** The file cannot be loaded: the package lookup raises, or [open] raises,
    or reading the file raises (whatever the exception). *)
Definition cannot_load (w : World) (package_name file_path : string) : Prop :=
  (∃ e, get_package_share_directory w package_name = Raise e)
  ∨ ∃ dir,
      get_package_share_directory w package_name = Ok dir
      ∧ ((∃ e, open_r w (os_path_join w dir file_path) = Raise e)
         ∨ ∃ file e, open_r w (os_path_join w dir file_path) = Ok file
                     ∧ read file = Raise e).

(** If the file opens, reading it reaches its end. *)
Definition reads_whole (w : World) (package_name file_path : string) : Prop :=
  ∀ dir file,
    get_package_share_directory w package_name = Ok dir ->
    open_r w (os_path_join w dir file_path) = Ok file ->
    failure file = None.

(** What [load_file] put into a model parameter: [None] with the file
    impossible to load, or the text the file reads as. *)
Definition model_value (w : World) (package_name file_path : string) (v : value) : Prop :=
  (v = VNone ∧ cannot_load w package_name file_path)
  ∨ ∃ text, v = VStr text ∧ opens_with_text w package_name file_path text.

(** The packages are installed; every file opens and delivers a text with
    a YAML syntax error before a byte that does not decode.  [file.read()]
    raises [UnicodeDecodeError]; [yaml.safe_load] meets the syntax error
    first. *)
Definition early_syntax_error_world : World := {|
  get_package_share_directory := get_package_share_directory (disk_world bare_disk);
  os_path_join := posix_join;
  open_r path := Ok {| delivered := "panda_arm: ]"; failure := Some UnicodeDecodeError |};
  yaml_safe_load file := Raise (YAMLError "did not find expected node content");
  Node_raises n := None;
|}.

(** [None] or a string. *)
Definition text_or_None (v : value) : Prop := v = VNone ∨ ∃ text, v = VStr text.

(** The packages are installed and every file opens, but its bytes do not
    decode: [read] raises [UnicodeDecodeError]. *)
Definition undecodable_world : World := {|
  get_package_share_directory := get_package_share_directory (disk_world bare_disk);
  os_path_join := posix_join;
  open_r path := Ok {| delivered := ""; failure := Some UnicodeDecodeError |};
  yaml_safe_load := yaml_safe_load (disk_world bare_disk);
  Node_raises n := None;
|}.

(** The packages are installed and every file opens, but reading it fails
    with an I/O error. *)
Definition io_error_world : World := {|
  get_package_share_directory := get_package_share_directory (disk_world bare_disk);
  os_path_join := posix_join;
  open_r path := Ok {| delivered := ""; failure := Some (OSError "EIO") |};
  yaml_safe_load := yaml_safe_load (disk_world bare_disk);
  Node_raises n := None;
|}.


(** As [bare_disk], with a file the launch file does not name. *)
Definition cluttered_disk : Disk := {|
  packages := panda_packages;
  files := {[ "/share/moveit_grasps/config/other.yaml" := "other: {}" ]};
  documents := ∅;
  Node_refuses_None := false;
|}.

End Launch.

(* ===================================================================== *)
(** * Part 2: the grasp-candidate filter pipeline                         *)
(* ===================================================================== *)

Module FilterPipeline.

(** ** Stages, statuses, services *)

(** Modelled from the spec: the closed set of filter stage variants. *)
Inductive Stage : Type :=
| CuttingPlaneFilter
| ApproachDirectionFilter
| IKFeasibilityFilter
| IKWithCollisionFilter
| DesiredOrientationFilter.

#[export] Instance Stage_eq_dec : EqDecision Stage.
Proof. solve_decision. Defined.

Definition stage_name (s : Stage) : string :=
  match s with
  | CuttingPlaneFilter => "CuttingPlaneFilter"
  | ApproachDirectionFilter => "ApproachDirectionFilter"
  | IKFeasibilityFilter => "IKFeasibilityFilter"
  | IKWithCollisionFilter => "IKWithCollisionFilter"
  | DesiredOrientationFilter => "DesiredOrientationFilter"
  end.

(** Modelled from the spec: the three waypoints of a grasp candidate. *)
Inductive PoseKind : Type := Pregrasp | Grasp | Lift.

#[export] Instance PoseKind_eq_dec : EqDecision PoseKind.
Proof. solve_decision. Defined.

Definition pose_name (k : PoseKind) : string :=
  match k with
  | Pregrasp => "pregrasp_pose"
  | Grasp => "grasp_pose"
  | Lift => "lift_pose"
  end.

(** Modelled from the spec: the candidate status of the data model,
    [Pending], [PassedStage(k)], [RejectedAt(stage_name, reason)], [Valid]. *)
Inductive Status : Type :=
| Pending
| PassedStage (k : nat)
| RejectedAt (stage : string) (reason : string)
| Valid.

#[export] Instance Status_eq_dec : EqDecision Status.
Proof. solve_decision. Defined.

Definition is_terminal (st : Status) : bool :=
  match st with
  | RejectedAt _ _ | Valid => true
  | Pending | PassedStage _ => false
  end.

(** Modelled from the spec: what the kinematic solver adapter answers,
    [Solution | Unreachable], or the solver-internal timeout. *)
Inductive IKAnswer (Joints : Type) : Type :=
| Solution (q : Joints)
| Unreachable
| SolverTimeout.
Arguments Solution {Joints} q.
Arguments Unreachable {Joints}.
Arguments SolverTimeout {Joints}.

Definition is_solution {Joints} (a : IKAnswer Joints) : bool :=
  match a with
  | Solution _ => true
  | _ => false
  end.

(** Modelled from the spec: where a grasp lies with respect to the forbidden
    half-space of the cutting plane. *)
Inductive PlaneSide : Type := Allowed | OnBoundary | Forbidden.

(** Modelled from the spec: the black-box services of the design, the
    kinematic solver adapter [solve(pose, seed)], the collision query
    adapter [is_in_collision(robot_state, scene_snapshot)], and the three
    geometric decisions of the cheap filters (numeric code on poses and the
    configured thresholds).  Each is a function of its arguments: the
    design makes every per-stage decision deterministic given identical
    inputs and snapshot. *)
Class Services (Pose Joints Scene Thresholds : Type) : Type := {
  solve : Pose -> option Joints -> IKAnswer Joints;
  is_in_collision : Joints -> Scene -> bool;
  cutting_plane_side : Thresholds -> Pose -> Pose -> PlaneSide;
  approach_within_tolerance : Thresholds -> Pose -> Pose -> bool;
  orientation_within_tolerance : Thresholds -> Pose -> bool;
}.

(** Modelled from the spec: the calls a stage makes to the two adapters, in
    the order made. *)
Inductive Event : Type :=
| IKAttempt (k : PoseKind)
| CollisionQuery (k : PoseKind).

(** A computation together with the adapter calls it made. *)
Definition Logged (A : Type) : Type := (list Event * A)%type.

#[export] Instance Logged_ret : MRet Logged := fun A a => ([], a).
#[export] Instance Logged_bind : MBind Logged := fun A B f m =>
  let '(log1, a) := m in
  let '(log2, b) := f a in
  ((log1 ++ log2)%list, b).

Definition tell (e : Event) : Logged unit := ([e], tt).

(** The poses an [IKAttempt] was made for. *)
Definition ik_attempts (log : list Event) : list PoseKind :=
  omap (fun e => match e with IKAttempt k => Some k | CollisionQuery _ => None end) log.

(** How often [i] occurs in a list of identifiers. *)
Definition count_id (i : nat) (ids : list nat) : nat :=
  length (List.filter (fun j => bool_decide (j = i)) ids).

Section Model.
Context {Pose Joints Scene Thresholds : Type}.
Context `{!Services Pose Joints Scene Thresholds}.

(** ** Data model *)

(** Modelled from the spec: [GraspCandidate].  [gripper_opening] and
    [score] are carried as integers (they are read-only to the filters);
    the three [ik_*] fields are the [ik_solution] of the three poses, [None]
    until solved. *)
Record GraspCandidate : Type := {
  id : nat;
  grasp_pose : Pose;
  pregrasp_pose : Pose;
  lift_pose : Pose;
  gripper_opening : Z;
  score : Z;
  status : Status;
  ik_pregrasp : option Joints;
  ik_grasp : option Joints;
  ik_lift : option Joints;
}.

(** Modelled from the spec: [FilterPipelineConfig], the fields sourced from
    configuration; the enabled stage list is the [stages] argument of the
    orchestrator. *)
Record FilterPipelineConfig : Type := {
  thresholds : Thresholds;
  gripper_type : string;
  end_effector_group_name : string;
  planning_group_name : string;
  statistics_verbose : bool;
  show_filtered_grasps : bool;
  show_cutting_planes : bool;
  show_grasp_filter_collision_if_failed : bool;
  show_filtered_arm_solutions : bool;
}.

Definition pose_of (k : PoseKind) (c : GraspCandidate) : Pose :=
  match k with
  | Pregrasp => pregrasp_pose c
  | Grasp => grasp_pose c
  | Lift => lift_pose c
  end.

Definition ik_solution (k : PoseKind) (c : GraspCandidate) : option Joints :=
  match k with
  | Pregrasp => ik_pregrasp c
  | Grasp => ik_grasp c
  | Lift => ik_lift c
  end.

Definition set_status (st : Status) (c : GraspCandidate) : GraspCandidate :=
  {| id := id c; grasp_pose := grasp_pose c; pregrasp_pose := pregrasp_pose c;
     lift_pose := lift_pose c; gripper_opening := gripper_opening c;
     score := score c; status := st;
     ik_pregrasp := ik_pregrasp c; ik_grasp := ik_grasp c; ik_lift := ik_lift c |}.

Definition set_ik_solution (k : PoseKind) (q : Joints) (c : GraspCandidate)
    : GraspCandidate :=
  {| id := id c; grasp_pose := grasp_pose c; pregrasp_pose := pregrasp_pose c;
     lift_pose := lift_pose c; gripper_opening := gripper_opening c;
     score := score c; status := status c;
     ik_pregrasp := if k is Pregrasp then Some q else ik_pregrasp c;
     ik_grasp := if k is Grasp then Some q else ik_grasp c;
     ik_lift := if k is Lift then Some q else ik_lift c |}.

(** ** Filter stages *)

(** Modelled from the spec: what [evaluate] returns,
    [{pass, updated_candidate_fields, reason_if_failed}]. *)
Record Verdict : Type := {
  pass : bool;
  updated : GraspCandidate;
  reason_if_failed : option string;
}.

Definition passes (c : GraspCandidate) : Verdict :=
  {| pass := true; updated := c; reason_if_failed := None |}.

Definition fails (c : GraspCandidate) (reason : string) : Verdict :=
  {| pass := false; updated := c; reason_if_failed := Some reason |}.

(** Modelled from the spec: the fixed order in which the IK stages take the
    poses, pregrasp, grasp, lift. *)
Definition ik_order : list PoseKind := [Pregrasp; Grasp; Lift].

(** Modelled from the spec: the IK stages.  IK is attempted for the poses
    of [order] one after the other, seeded with the solution stored for
    that pose if there is one; the first pose without a (collision-free)
    solution ends the stage, and the remaining poses are not attempted.
    [with_collision] is the IKWithCollisionFilter, which validates each
    solution against the scene snapshot before storing it. *)
Fixpoint ik_chain (with_collision : bool) (scene : Scene) (order : list PoseKind)
    (c : GraspCandidate) : Logged Verdict :=
  match order with
  | [] => mret (passes c)
  | k :: rest =>
      _ ← tell (IKAttempt k);
      match solve (pose_of k c) (ik_solution k c) with
      | Solution q =>
          if with_collision then
            _ ← tell (CollisionQuery k);
            if is_in_collision q scene
            then mret (fails c (pose_name k ++ "_collision"))
            else ik_chain with_collision scene rest (set_ik_solution k q c)
          else ik_chain with_collision scene rest (set_ik_solution k q c)
      | Unreachable => mret (fails c (pose_name k ++ "_unreachable"))
      | SolverTimeout => mret (fails c "ik_timeout")
      end
  end.

(** Modelled from the spec: [evaluate(candidate, scene_snapshot, config)]
    for the five stage variants.  A grasp exactly on the cutting plane
    fails. *)
Definition evaluate (s : Stage) (c : GraspCandidate) (scene : Scene)
    (config : FilterPipelineConfig) : Logged Verdict :=
  match s with
  | CuttingPlaneFilter =>
      match cutting_plane_side (thresholds config) (pregrasp_pose c) (grasp_pose c) with
      | Allowed => mret (passes c)
      | OnBoundary => mret (fails c "on_cutting_plane")
      | Forbidden => mret (fails c "crosses_cutting_plane")
      end
  | ApproachDirectionFilter =>
      if approach_within_tolerance (thresholds config) (pregrasp_pose c) (grasp_pose c)
      then mret (passes c)
      else mret (fails c "approach_direction")
  | IKFeasibilityFilter => ik_chain false scene ik_order c
  | IKWithCollisionFilter => ik_chain true scene ik_order c
  | DesiredOrientationFilter =>
      if orientation_within_tolerance (thresholds config) (grasp_pose c)
      then mret (passes c)
      else mret (fails c "desired_orientation")
  end.

(** ** Orchestrator *)

(** Modelled from the spec: what one worker hands back for one candidate,
    the annotated candidate, the verdict of each stage it went through (in stage order)
    and the adapter calls made for it. *)
Record Traversal : Type := {
  annotated : GraspCandidate;
  verdicts : list bool;
  calls : list Event;
}.

(** Modelled from the spec: the stage chain of one candidate, run
    sequentially until a stage fails or all stages pass, then marked with
    its terminal status.  [k] is the position of the next stage. *)
Fixpoint stage_chain (k : nat) (stages : list Stage) (scene : Scene)
    (config : FilterPipelineConfig) (c : GraspCandidate)
    : Logged (GraspCandidate * list bool) :=
  match stages with
  | [] => mret (set_status Valid c, [])
  | s :: rest =>
      v ← evaluate s c scene config;
      if pass v then
        '(c', vs) ← stage_chain (S k) rest scene config
                      (set_status (PassedStage k) (updated v));
        mret (c', true :: vs)
      else
        mret (set_status (RejectedAt (stage_name s) (default "" (reason_if_failed v)))
                         (updated v),
              [false])
  end.

Definition traverse (stages : list Stage) (scene : Scene)
    (config : FilterPipelineConfig) (c : GraspCandidate) : Traversal :=
  let '(log, (c', vs)) := stage_chain 0 stages scene config c in
  {| annotated := c'; verdicts := vs; calls := log |}.

(** Modelled from the spec: a candidate taken from the queue after the
    cancellation flag was raised is marked [RejectedAt(_, "cancelled")]; no
    stage is run for it. *)
Definition cancel (c : GraspCandidate) : Traversal :=
  {| annotated := set_status (RejectedAt "" "cancelled") c; verdicts := []; calls := [] |}.

(** Modelled from the spec: the cancellation flag is looked at between
    candidates; [abort = Some n] says it was raised after [n] candidates had
    been taken from the queue. *)
Definition cancelled_at (abort : option nat) (i : nat) : bool :=
  match abort with
  | Some n => bool_decide (n ≤ i)%nat
  | None => false
  end.

Definition settle (stages : list Stage) (scene : Scene) (config : FilterPipelineConfig)
    (abort : option nat) (i : nat) (c : GraspCandidate) : Traversal :=
  if cancelled_at abort i then cancel c else traverse stages scene config c.

(** Modelled from the spec: the worker pool draining the shared work
    queue.  The queue hands out candidates one at a time; [sched i] is the
    worker that wins the [i]-th pop (taken modulo the pool size), the one
    piece of the run that is not fixed by its inputs.  That worker owns the
    candidate for its whole traversal and appends the outcome to its own
    results. *)
Fixpoint drain (stages : list Stage) (scene : Scene) (config : FilterPipelineConfig)
    (worker_count : nat) (abort : option nat) (sched : nat -> nat)
    (i : nat) (queue : list GraspCandidate) (pool : list (list Traversal))
    : list (list Traversal) :=
  match queue with
  | [] => pool
  | c :: queue' =>
      let w := sched i `mod` worker_count in
      let r := settle stages scene config abort i c in
      drain stages scene config worker_count abort sched (S i) queue'
            (alter (fun done => (done ++ [r])%list) w pool)
  end.

(** The outcomes of the candidates of a queue taken one after the other,
    the [i]-th pop first: what a single worker hands back. *)
Fixpoint sequential (stages : list Stage) (scene : Scene) (config : FilterPipelineConfig)
    (abort : option nat) (i : nat) (queue : list GraspCandidate) : list Traversal :=
  match queue with
  | [] => []
  | c :: queue' =>
      settle stages scene config abort i c
      :: sequential stages scene config abort (S i) queue'
  end.

(** How many candidates of a list carry the identifier [i]. *)
Definition occurrences (i : nat) (cs : list GraspCandidate) : nat :=
  length (List.filter (fun c => bool_decide (id c = i)) cs).

(** Modelled from the spec: [RunStatistics], per-stage counters
    (attempted, passed, failed) and the number of candidates of the run.
    Wall-clock timing is not represented. *)
Record Counters : Type := { attempted : nat; passed : nat; failed : nat }.

Record RunStatistics : Type := {
  candidates_attempted : nat;
  per_stage : list (Stage * Counters);
}.

Definition count_where (P : Traversal -> bool) (rs : list Traversal) : nat :=
  length (List.filter P rs).

(** Modelled from the spec: the single accumulation point of the
    statistics, after all workers have joined. *)
Definition aggregate (stages : list Stage) (rs : list Traversal) : RunStatistics :=
  {| candidates_attempted := length rs;
     per_stage :=
       imap (fun k s =>
               (s, {| attempted := count_where (fun r => bool_decide (k < length (verdicts r))%nat) rs;
                      passed := count_where (fun r => bool_decide (verdicts r !! k = Some true)) rs;
                      failed := count_where (fun r => bool_decide (verdicts r !! k = Some false)) rs |}))
            stages |}.

Definition all_zero (stages : list Stage) : RunStatistics :=
  {| candidates_attempted := 0;
     per_stage := (fun s => (s, {| attempted := 0; passed := 0; failed := 0 |})) <$> stages |}.

(** Modelled from the spec:
    [run(candidates, stages, scene_snapshot, config, worker_count)], which
    returns the annotated candidates and the statistics once every worker
    has joined.  [abort] and [sched] are the cancellation signal and the
    scheduling of the run. *)
Definition run (candidates : list GraspCandidate) (stages : list Stage) (scene : Scene)
    (config : FilterPipelineConfig) (worker_count : nat)
    (abort : option nat) (sched : nat -> nat)
    : list GraspCandidate * RunStatistics :=
  let pool := drain stages scene config worker_count abort sched 0 candidates
                    (replicate worker_count []) in
  let joined := concat pool in
  (annotated <$> joined, aggregate stages joined).

End Model.

Arguments GraspCandidate : clear implicits.
Arguments FilterPipelineConfig : clear implicits.

(** ** A small instance, for running the model *)

(** Poses, joint states and thresholds are numbers: a pose below 100 is
    reachable (joint state [pose + 1000]), one below 200 is out of reach,
    the others time out; the scene lists the joint states in collision;
    the cutting plane is at the threshold. *)
#[export] Instance number_services : Services nat nat (list nat) nat := {|
  solve p seed :=
    if decide (p < 100)%nat then Solution (p + 1000)
    else if decide (p < 200)%nat then Unreachable else SolverTimeout;
  is_in_collision q scene := bool_decide (q ∈ scene);
  cutting_plane_side t pre g :=
    if decide (t < g)%nat then Allowed else if decide (t = g) then OnBoundary else Forbidden;
  approach_within_tolerance t pre g := bool_decide (g ≤ pre + t)%nat;
  orientation_within_tolerance t g := true;
|}.

Definition candidate (i pre g lift : nat) : GraspCandidate nat nat :=
  {| id := i; grasp_pose := g; pregrasp_pose := pre; lift_pose := lift;
     gripper_opening := 0; score := Z.of_nat i; status := Pending;
     ik_pregrasp := None; ik_grasp := None; ik_lift := None |}.

Definition demo_config : FilterPipelineConfig nat :=
  {| thresholds := 10; gripper_type := "two_finger";
     end_effector_group_name := "hand"; planning_group_name := "panda_arm";
     statistics_verbose := true; show_filtered_grasps := true;
     show_cutting_planes := true; show_grasp_filter_collision_if_failed := true;
     show_filtered_arm_solutions := true |}.

Definition demo_stages : list Stage :=
  [CuttingPlaneFilter; ApproachDirectionFilter; IKFeasibilityFilter; IKWithCollisionFilter].

(** The example of the design: one candidate through the cutting plane,
    one valid, one in collision at its lift pose. *)
Definition demo_candidates : list (GraspCandidate nat nat) :=
  [candidate 1 12 5 30; candidate 2 12 20 30; candidate 3 14 22 40].

Definition demo_scene : list nat := [1040].

(** The same three, and one whose pregrasp pose makes the solver time out. *)
Definition timeout_candidates : list (GraspCandidate nat nat) :=
  (demo_candidates ++ [candidate 4 240 250 260])%list.

Definition round_robin (i : nat) : nat := i.

End FilterPipeline.

(* ===================================================================== *)
(** * Properties of the launch file                                       *)
(* ===================================================================== *)

Import Launch.

Section LaunchFacts.

Lemma bind_Ok {A B} (m : result A) (f : A -> result B) (b : B) :
  m ≫= f = Ok b -> ∃ a, m = Ok a ∧ f a = Ok b.
Proof. destruct m as [a|e]; cbn; [eauto | discriminate]. Qed.

(** The body of [generate_launch_description], with the [Node] literal
    named. *)
Lemma generate_launch_description_unfold (w : World) :
  generate_launch_description w =
    (rd ← load_file w "moveit_resources_panda_description" "urdf/panda.urdf";
     rds ← load_file w "moveit_resources_panda_moveit_config" "config/panda.srdf";
     k ← load_yaml w "moveit_resources_panda_moveit_config" "config/kinematics.yaml";
     g ← load_yaml w "moveit_grasps" "config_robot/panda_grasp_data.yaml";
     m ← load_yaml w "moveit_grasps" "config/moveit_grasps_config.yaml";
     n ← Node_new w (grasps_demo_args rd rds k g m);
     mret {| entities := [n] |}).
Proof. reflexivity. Qed.

Lemma generate_launch_description_Ok (w : World) (ld : LaunchDescription) :
  generate_launch_description w = Ok ld
  <-> ∃ rd rds k g m,
        loaded w rd rds k g m ∧ ld = {| entities := [grasps_demo_args rd rds k g m] |}.
Proof.
  rewrite generate_launch_description_unfold. split.
  - intros H.
    apply bind_Ok in H as (rd & Hrd & H).
    apply bind_Ok in H as (rds & Hrds & H).
    apply bind_Ok in H as (k & Hk & H).
    apply bind_Ok in H as (g & Hg & H).
    apply bind_Ok in H as (m & Hm & H).
    apply bind_Ok in H as (n & Hn & H).
    unfold Node_new in Hn.
    destruct (Node_raises w _) eqn:Hnode; [discriminate|].
    exists rd, rds, k, g, m. unfold loaded.
    unfold mret, result_ret in H. by simplify_eq.
  - intros (rd & rds & k & g & m & (Hrd & Hrds & Hk & Hg & Hm & Hnode) & ->).
    rewrite Hrd; cbn. rewrite Hrds; cbn. rewrite Hk; cbn. rewrite Hg; cbn.
    rewrite Hm; cbn. unfold Node_new. by rewrite Hnode.
Qed.

Lemma load_file_cannot_open (w : World) (package_name file_path : string) :
  cannot_open w package_name file_path ->
  load_file w package_name file_path = Ok VNone.
Proof.
  intros (dir & e & Hdir & Hopen & He). unfold load_file.
  rewrite Hdir; cbn. rewrite Hopen; cbn. by rewrite He.
Qed.

(** C1 (as amended).  Whenever [generate_launch_description] returns, the
    parameter list handed to the demo node has, from its fourth entry on,
    eight one-entry dictionaries named [gripper], [ee_group_name],
    [planning_group_name] and, under [moveit_grasps/filter/],
    [statistics_verbose], [show_filtered_grasps], [show_cutting_planes],
    [show_grasp_filter_collision_if_failed], [show_filtered_arm_solutions];
    its last two entries are what [load_yaml] returned for
    [panda_grasp_data.yaml] and [moveit_grasps_config.yaml]. *)
Theorem launch_parameter_entries (w : World) (ld : LaunchDescription) :
  generate_launch_description w = Ok ld ->
  ∃ n g m,
    entities ld = [n]
    ∧ load_yaml w "moveit_grasps" "config_robot/panda_grasp_data.yaml" = Ok g
    ∧ load_yaml w "moveit_grasps" "config/moveit_grasps_config.yaml" = Ok m
    ∧ take 8 (drop 3 (parameters n)) =
        [VDict {[ "gripper" := VStr "two_finger" ]};
         VDict {[ "ee_group_name" := VStr "hand" ]};
         VDict {[ "planning_group_name" := VStr "panda_arm" ]};
         VDict {[ "moveit_grasps/filter/statistics_verbose" := VBool true ]};
         VDict {[ "moveit_grasps/filter/show_filtered_grasps" := VBool true ]};
         VDict {[ "moveit_grasps/filter/show_cutting_planes" := VBool true ]};
         VDict {[ "moveit_grasps/filter/show_grasp_filter_collision_if_failed" := VBool true ]};
         VDict {[ "moveit_grasps/filter/show_filtered_arm_solutions" := VBool true ]}]
    ∧ param_names (take 8 (drop 3 (parameters n))) =
        ["gripper"; "ee_group_name"; "planning_group_name";
         "moveit_grasps/filter/statistics_verbose";
         "moveit_grasps/filter/show_filtered_grasps";
         "moveit_grasps/filter/show_cutting_planes";
         "moveit_grasps/filter/show_grasp_filter_collision_if_failed";
         "moveit_grasps/filter/show_filtered_arm_solutions"]
    ∧ drop 11 (parameters n) = [g; m].
Proof.
  intros H. apply generate_launch_description_Ok in H
    as (rd & rds & k & g & m & (_ & _ & _ & Hg & Hm & _) & ->).
  exists (grasps_demo_args rd rds k g m), g, m.
  repeat split; done.
Qed.

Lemma launch_parameter_entries_witness :
  generate_launch_description (disk_world full_disk) = Ok full_disk_launch
  ∧ ∃ n g m,
      entities full_disk_launch = [n]
      ∧ load_yaml (disk_world full_disk) "moveit_grasps" "config_robot/panda_grasp_data.yaml" = Ok g
      ∧ load_yaml (disk_world full_disk) "moveit_grasps" "config/moveit_grasps_config.yaml" = Ok m
      ∧ take 8 (drop 3 (parameters n)) =
          [VDict {[ "gripper" := VStr "two_finger" ]};
           VDict {[ "ee_group_name" := VStr "hand" ]};
           VDict {[ "planning_group_name" := VStr "panda_arm" ]};
           VDict {[ "moveit_grasps/filter/statistics_verbose" := VBool true ]};
           VDict {[ "moveit_grasps/filter/show_filtered_grasps" := VBool true ]};
           VDict {[ "moveit_grasps/filter/show_cutting_planes" := VBool true ]};
           VDict {[ "moveit_grasps/filter/show_grasp_filter_collision_if_failed" := VBool true ]};
           VDict {[ "moveit_grasps/filter/show_filtered_arm_solutions" := VBool true ]}]
      ∧ param_names (take 8 (drop 3 (parameters n))) =
          ["gripper"; "ee_group_name"; "planning_group_name";
           "moveit_grasps/filter/statistics_verbose";
           "moveit_grasps/filter/show_filtered_grasps";
           "moveit_grasps/filter/show_cutting_planes";
           "moveit_grasps/filter/show_grasp_filter_collision_if_failed";
           "moveit_grasps/filter/show_filtered_arm_solutions"]
      ∧ drop 11 (parameters n) = [g; m].
Proof.
  split; [vm_compute; reflexivity |].
  apply (launch_parameter_entries (disk_world full_disk) full_disk_launch).
  vm_compute; reflexivity.
Defined.

(** C1, as stated, fails: with all five files in place the parameter list
    has no entry named [gripper_type] and none named
    [end_effector_group_name]. *)
Lemma no_gripper_type_entry :
  ∃ n,
    generate_launch_description (disk_world full_disk) = Ok {| entities := [n] |}
    ∧ ("gripper_type" ∉ param_names (parameters n))
    ∧ ("end_effector_group_name" ∉ param_names (parameters n)).
Proof.
  exists (grasps_demo_args (VStr "<robot name='panda'/>") (VStr "<robot name='panda'/>")
            (VDict {[ "panda_arm" := VDict ∅ ]}) (VDict {[ "hand" := VDict ∅ ]})
            (VDict {[ "moveit_grasps" := VDict ∅ ]})).
  split; [vm_compute; reflexivity |].
  split; apply (bool_decide_unpack _); vm_compute; exact I.
Qed.

(** What [read()] returned is all the stream had. *)
Lemma read_Ok_inv (file : TextIO) (text : string) :
  read file = Ok text -> file = {| delivered := text; failure := None |}.
Proof.
  destruct file as [d [e|]]; unfold read; cbn; [done|]. by intros [= ->].
Qed.

Lemma yaml_safe_load_read (w : World) (file : TextIO) (text : string) :
  read file = Ok text -> yaml_safe_load w file = yaml_parse w text.
Proof. by intros ->%read_Ok_inv. Qed.

Lemma load_file_cannot_load (w : World) (package_name file_path : string) (v : value) :
  cannot_load w package_name file_path ->
  load_file w package_name file_path = Ok v -> v = VNone.
Proof.
  unfold load_file.
  intros [(e & Hdir)|(dir & Hdir & [(e & Hopen)|(file & e & Hopen & Hread)])];
    rewrite Hdir; cbn; [done | rewrite Hopen; cbn ..].
  - destruct (is_EnvironmentError e); [by intros [= <-] | done].
  - rewrite Hread; cbn. destruct (is_EnvironmentError e); [by intros [= <-] | done].
Qed.

Lemma disk_refuses_None (d : Disk) :
  Node_refuses_None d = true -> refuses_None_values (disk_world d).
Proof.
  intros Hstrict n m key Hin Hkey. cbn. rewrite Hstrict. cbn.
  assert (has_None_entry (parameters n) = true) as ->; [|done].
  unfold has_None_entry. apply orb_true_iff. left.
  apply existsb_exists. exists (key, VNone). split; [|done].
  apply in_flat_map. exists (VDict m). split.
  - by apply list_elem_of_In.
  - cbn. apply list_elem_of_In. by apply elem_of_map_to_list.
Qed.

(** C2.  With a [Node] constructor that refuses a [None] parameter value:
    whenever the robot description or the semantic description cannot be
    loaded (its package is not found, or opening or reading the file
    raises), [generate_launch_description] raises and returns no launch
    description; it never goes on with an absent model. *)
Theorem unloadable_model_is_fatal (w : World) (semantic : bool) :
  refuses_None_values w ->
  cannot_load w (model_file semantic).1 (model_file semantic).2 ->
  (∃ e, generate_launch_description w = Raise e)
  ∧ ∀ ld, generate_launch_description w ≠ Ok ld.
Proof.
  intros Hnode Hload.
  assert (∀ ld, generate_launch_description w ≠ Ok ld) as Hnever.
  { intros ld Hld. apply generate_launch_description_Ok in Hld
      as (rd & rds & k & g & m & (Hrd & Hrds & _ & _ & _ & Haccepts) & _).
    destruct semantic; cbn in Hload.
    - pose proof (load_file_cannot_load _ _ _ _ Hload Hrds) as ->.
      refine (Hnode _ {[ "robot_description_semantic" := VNone ]}
                    "robot_description_semantic" _ _ Haccepts).
      + cbn. set_solver.
      + apply lookup_singleton_eq.
    - pose proof (load_file_cannot_load _ _ _ _ Hload Hrd) as ->.
      refine (Hnode _ {[ "robot_description" := VNone ]} "robot_description" _ _ Haccepts).
      + cbn. set_solver.
      + apply lookup_singleton_eq. }
  split; [|done].
  destruct (generate_launch_description w) as [ld|e] eqn:Hld; [|eauto].
  by destruct (Hnever ld).
Qed.

Lemma unloadable_model_is_fatal_witness :
  let w := disk_world missing_urdf_disk in
  refuses_None_values w
  ∧ cannot_load w "moveit_resources_panda_description" "urdf/panda.urdf"
  ∧ load_file w "moveit_resources_panda_description" "urdf/panda.urdf" = Ok VNone
  ∧ generate_launch_description w
    = Raise (TypeError "Unexpected type for parameter value None").
Proof.
  intros w.
  assert (refuses_None_values w) as Hnode by (by apply disk_refuses_None).
  assert (cannot_load w (model_file false).1 (model_file false).2) as Hload.
  { right. exists "/share/moveit_resources_panda_description". split; [reflexivity|].
    left. exists (OSError "ENOENT"). vm_compute; reflexivity. }
  destruct (unloadable_model_is_fatal w false Hnode Hload) as [[e He] _].
  split; [exact Hnode |]. split; [exact Hload |].
  split; [vm_compute; reflexivity |].
  assert (generate_launch_description w
          = Raise (TypeError "Unexpected type for parameter value None")) as Hrun
    by (vm_compute; reflexivity).
  rewrite He. f_equal. congruence.
Defined.

(** C9.  [load_yaml] returns [None], and raises nothing, both when the file
    cannot be opened and when it opens but is empty or holds only a YAML
    null, so the two cannot be told apart by its result.  ([yaml.safe_load]
    of an empty stream is [None].) *)
Theorem load_yaml_missing_or_empty (w : World) (package_name file_path : string) :
  yaml_parse w "" = Ok VNone ->
  cannot_open w package_name file_path
  ∨ opens_with_text w package_name file_path ""
  ∨ (∃ text, opens_with_text w package_name file_path text
             ∧ yaml_parse w text = Ok VNone) ->
  load_yaml w package_name file_path = Ok VNone.
Proof.
  intros Hempty Hcases. unfold load_yaml.
  destruct Hcases as [(dir & e & Hdir & Hopen & He)
                     |[(dir & file & Hdir & Hopen & Hread)
                      |(text & (dir & file & Hdir & Hopen & Hread) & Hnull)]];
    rewrite Hdir; cbn; rewrite Hopen; cbn.
  - by rewrite He.
  - by rewrite (yaml_safe_load_read _ _ _ Hread), Hempty.
  - by rewrite (yaml_safe_load_read _ _ _ Hread), Hnull.
Qed.

Lemma load_yaml_missing_or_empty_witness :
  load_yaml (disk_world bare_disk) "moveit_grasps" "config_robot/panda_grasp_data.yaml"
    = Ok VNone
  ∧ load_yaml (disk_world empty_yaml_disk) "moveit_grasps" "config_robot/panda_grasp_data.yaml"
    = Ok VNone.
Proof.
  split.
  - apply (load_yaml_missing_or_empty (disk_world bare_disk)); [reflexivity |].
    left. exists "/share/moveit_grasps", (OSError "ENOENT").
    repeat split; vm_compute; reflexivity.
  - apply (load_yaml_missing_or_empty (disk_world empty_yaml_disk)); [reflexivity |].
    right; left. exists "/share/moveit_grasps", {| delivered := ""; failure := None |}.
    repeat split; vm_compute; reflexivity.
Defined.

Lemma show_params_app (ps qs : list value) :
  show_params (ps ++ qs) = (show_params ps ++ show_params qs)%list.
Proof. unfold show_params. by rewrite flat_map_app, List.filter_app. Qed.

Lemma show_params_singleton (key : string) (v : value) :
  show_params [VDict {[ key := v ]}] = if is_show_name key then [(key, v)] else [].
Proof.
  unfold show_params. cbn [flat_map dict_items].
  rewrite map_to_list_singleton. cbn [app List.filter fst].
  by destruct (is_show_name key).
Qed.

(** C3.  Exactly four [show_*] parameters are set by the launch file:
    entries 8 to 11 of the node's parameter list are the one-entry
    dictionaries of [show_filtered_grasps], [show_cutting_planes],
    [show_grasp_filter_collision_if_failed] and
    [show_filtered_arm_solutions], each named under
    [moveit_grasps/filter/] and each [True]; they are all the [show_*]
    entries of the list besides what the three loaded YAML documents may
    carry. *)
Theorem four_show_flags (w : World) (ld : LaunchDescription) :
  generate_launch_description w = Ok ld ->
  ∃ n k g m,
    entities ld = [n]
    ∧ load_yaml w "moveit_resources_panda_moveit_config" "config/kinematics.yaml" = Ok k
    ∧ load_yaml w "moveit_grasps" "config_robot/panda_grasp_data.yaml" = Ok g
    ∧ load_yaml w "moveit_grasps" "config/moveit_grasps_config.yaml" = Ok m
    ∧ length show_flags = 4%nat
    ∧ take 4 (drop 7 (parameters n))
      = (fun flag => VDict {[ namespaced flag := VBool true ]}) <$> show_flags
    ∧ show_params (parameters n)
      = (show_params [k]
         ++ ((fun flag => (namespaced flag, VBool true)) <$> show_flags)
         ++ show_params [g; m])%list.
Proof.
  intros H. apply generate_launch_description_Ok in H
    as (rd & rds & k & g & m & (_ & _ & Hk & Hg & Hm & _) & ->).
  exists (grasps_demo_args rd rds k g m), k, g, m.
  do 6 (split; [done|]).
  cbn [parameters grasps_demo_args].
  change (show_params
            ([VDict {[ "robot_description" := rd ]}]
             ++ [VDict {[ "robot_description_semantic" := rds ]}]
             ++ [k]
             ++ [VDict {[ "gripper" := VStr "two_finger" ]}]
             ++ [VDict {[ "ee_group_name" := VStr "hand" ]}]
             ++ [VDict {[ "planning_group_name" := VStr "panda_arm" ]}]
             ++ [VDict {[ "moveit_grasps/filter/statistics_verbose" := VBool true ]}]
             ++ [VDict {[ "moveit_grasps/filter/show_filtered_grasps" := VBool true ]}]
             ++ [VDict {[ "moveit_grasps/filter/show_cutting_planes" := VBool true ]}]
             ++ [VDict {[ "moveit_grasps/filter/show_grasp_filter_collision_if_failed" := VBool true ]}]
             ++ [VDict {[ "moveit_grasps/filter/show_filtered_arm_solutions" := VBool true ]}]
             ++ [g; m])%list
          = (show_params [k]
             ++ ((fun flag => (namespaced flag, VBool true)) <$> show_flags)
             ++ show_params [g; m])%list).
  rewrite !show_params_app, !show_params_singleton.
  reflexivity.
Qed.

Lemma four_show_flags_witness :
  generate_launch_description (disk_world bare_disk)
    = Ok {| entities := [grasps_demo_args VNone VNone VNone VNone VNone] |}
  ∧ show_params (parameters (grasps_demo_args VNone VNone VNone VNone VNone))
    = [("moveit_grasps/filter/show_filtered_grasps", VBool true);
       ("moveit_grasps/filter/show_cutting_planes", VBool true);
       ("moveit_grasps/filter/show_grasp_filter_collision_if_failed", VBool true);
       ("moveit_grasps/filter/show_filtered_arm_solutions", VBool true)].
Proof.
  assert (generate_launch_description (disk_world bare_disk)
          = Ok {| entities := [grasps_demo_args VNone VNone VNone VNone VNone] |}) as Hld.
  { vm_compute; reflexivity. }
  split; [exact Hld |].
  destruct (four_show_flags _ _ Hld) as (n & k & g & m & Hn & Hk & Hg & Hm & _ & _ & Hshow).
  injection Hn as <-.
  assert (k = VNone) as -> by (vm_compute in Hk; congruence).
  assert (g = VNone) as -> by (vm_compute in Hg; congruence).
  assert (m = VNone) as -> by (vm_compute in Hm; congruence).
  exact Hshow.
Defined.

(** C10 (as amended).  [generate_launch_description] returns exactly when
    its two [load_file] calls, its three [load_yaml] calls and the [Node]
    constructor return (with the packages installed, a missing file makes
    its load return [None]); what it returns is then a launch description of
    one node named [moveit_generator_demo], package [moveit_grasps],
    executable [moveit_grasps_grasp_filter_demo], output [screen], whose
    parameter list has exactly 13 entries, in the order of the source. *)
Theorem launch_description_shape (w : World) (ld : LaunchDescription) :
  generate_launch_description w = Ok ld
  <-> ∃ rd rds k g m n,
        loaded w rd rds k g m
        ∧ ld = {| entities := [n] |}
        ∧ name n = "moveit_generator_demo"
        ∧ package n = "moveit_grasps"
        ∧ executable n = "moveit_grasps_grasp_filter_demo"
        ∧ output n = "screen"
        ∧ length (parameters n) = 13%nat
        ∧ parameters n = [
            VDict {[ "robot_description" := rd ]};
            VDict {[ "robot_description_semantic" := rds ]};
            k;
            VDict {[ "gripper" := VStr "two_finger" ]};
            VDict {[ "ee_group_name" := VStr "hand" ]};
            VDict {[ "planning_group_name" := VStr "panda_arm" ]};
            VDict {[ "moveit_grasps/filter/statistics_verbose" := VBool true ]};
            VDict {[ "moveit_grasps/filter/show_filtered_grasps" := VBool true ]};
            VDict {[ "moveit_grasps/filter/show_cutting_planes" := VBool true ]};
            VDict {[ "moveit_grasps/filter/show_grasp_filter_collision_if_failed" := VBool true ]};
            VDict {[ "moveit_grasps/filter/show_filtered_arm_solutions" := VBool true ]};
            g;
            m ].
Proof.
  rewrite generate_launch_description_Ok. split.
  - intros (rd & rds & k & g & m & Hloaded & ->).
    exists rd, rds, k, g, m, (grasps_demo_args rd rds k g m).
    split; [done|]. repeat split.
  - intros (rd & rds & k & g & m & n & Hloaded & -> & Hname & Hpkg & Hexe & Hout & _ & Hps).
    exists rd, rds, k, g, m. split; [done|].
    destruct n as [n1 n2 n3 n4 n5]; cbn in *. by subst.
Qed.

Lemma launch_description_shape_witness :
  loaded (disk_world bare_disk) VNone VNone VNone VNone VNone
  ∧ generate_launch_description (disk_world bare_disk)
    = Ok {| entities := [grasps_demo_args VNone VNone VNone VNone VNone] |}.
Proof.
  assert (loaded (disk_world bare_disk) VNone VNone VNone VNone VNone) as Hloaded.
  { repeat split; vm_compute; reflexivity. }
  split; [exact Hloaded |].
  apply launch_description_shape.
  exists VNone, VNone, VNone, VNone, VNone, (grasps_demo_args VNone VNone VNone VNone VNone).
  split; [exact Hloaded |]. repeat split.
Defined.

(** C10, as stated, fails: with the packages installed and every
    configuration file missing, the parameter list of the node has 13
    entries, not 12; and on a platform without the packages nothing is
    returned at all. *)
Lemma thirteen_parameters :
  (∃ n,
     generate_launch_description (disk_world bare_disk) = Ok {| entities := [n] |}
     ∧ length (parameters n) = 13%nat
     ∧ length (parameters n) ≠ 12%nat)
  ∧ generate_launch_description (disk_world blank_disk)
    = Raise (PackageNotFoundError "moveit_resources_panda_description").
Proof.
  split; [| vm_compute; reflexivity].
  exists (grasps_demo_args VNone VNone VNone VNone VNone).
  split; [vm_compute; reflexivity |]. split; [reflexivity | cbn; lia].
Qed.

(** A package that is not installed is another matter: the lookup raises
    before any file is opened, and [load_yaml] lets it through. *)
Example load_yaml_missing_package :
  load_yaml (disk_world blank_disk) "moveit_grasps" "config/moveit_grasps_config.yaml"
  = Raise (PackageNotFoundError "moveit_grasps").
Proof. reflexivity. Qed.

End LaunchFacts.

(* ===================================================================== *)
(** * More properties of the loaders and of the launch description        *)
(* ===================================================================== *)

Section LoaderFacts.

Lemma load_file_lookup_Raise (w : World) (package_name file_path : string) (e : exn) :
  get_package_share_directory w package_name = Raise e ->
  load_file w package_name file_path = Raise e.
Proof. intros H. unfold load_file. by rewrite H. Qed.

Lemma load_yaml_lookup_Raise (w : World) (package_name file_path : string) (e : exn) :
  get_package_share_directory w package_name = Raise e ->
  load_yaml w package_name file_path = Raise e.
Proof. intros H. unfold load_yaml. by rewrite H. Qed.

(** Case analysis of [load_file] once the package is found. *)
Lemma load_file_found (w : World) (package_name file_path dir : string) :
  get_package_share_directory w package_name = Ok dir ->
  load_file w package_name file_path
  = try_except
      (file ← open_r w (os_path_join w dir file_path);
       text ← read file; mret (VStr text))
      is_EnvironmentError (mret VNone).
Proof. intros H. unfold load_file. by rewrite H. Qed.

Lemma load_yaml_found (w : World) (package_name file_path dir : string) :
  get_package_share_directory w package_name = Ok dir ->
  load_yaml w package_name file_path
  = try_except
      (file ← open_r w (os_path_join w dir file_path); yaml_safe_load w file)
      is_EnvironmentError (mret VNone).
Proof. intros H. unfold load_yaml. by rewrite H. Qed.


(** X2.  The package lookup is made before the [try]: whatever it raises,
    an [EnvironmentError] included, comes out of [load_file] and of
    [load_yaml] unchanged. *)
Theorem lookup_error_propagates (w : World) (package_name file_path : string) (e : exn) :
  get_package_share_directory w package_name = Raise e ->
  load_file w package_name file_path = Raise e
  ∧ load_yaml w package_name file_path = Raise e.
Proof.
  intros H. split; [by apply load_file_lookup_Raise | by apply load_yaml_lookup_Raise].
Qed.

Lemma load_file_text_or_None (w : World) (package_name file_path : string) (v : value) :
  load_file w package_name file_path = Ok v -> text_or_None v.
Proof.
  unfold load_file, text_or_None.
  destruct (get_package_share_directory w package_name) as [dir|e]; cbn; [|done].
  destruct (open_r w _) as [file|e]; cbn.
  - destruct (read file) as [text|e]; cbn.
    + intros [= <-]. eauto.
    + destruct (is_EnvironmentError e); [|done]. intros [= <-]. by left.
  - destruct (is_EnvironmentError e); [|done]. intros [= <-]. by left.
Qed.

(** X3.  [load_file] returns nothing but [None] or a string. *)
Theorem load_file_value_shape (w : World) (package_name file_path : string) (v : value) :
  load_file w package_name file_path = Ok v ->
  v = VNone ∨ ∃ text, v = VStr text.
Proof. apply load_file_text_or_None. Qed.






(** X9.  For a file that, if it opens, reads to its end, [load_yaml] is
    [load_file] followed by parsing: it raises what [load_file] raises,
    returns [None] where [load_file] does, and parses the text [load_file]
    returns. *)
Theorem load_yaml_is_load_file_then_parse (w : World) (package_name file_path : string) :
  reads_whole w package_name file_path ->
  load_yaml w package_name file_path
  = load_file w package_name file_path ≫= parse_loaded w.
Proof.
  intros Hwhole. unfold load_yaml, load_file.
  destruct (get_package_share_directory w package_name) as [dir|e] eqn:Hdir; cbn; [|done].
  destruct (open_r w _) as [file|e] eqn:Hopen; cbn.
  - pose proof (Hwhole dir file Hdir Hopen) as Hend.
    assert (read file = Ok (delivered file)) as Hread by (unfold read; by rewrite Hend).
    by rewrite (yaml_safe_load_read _ _ _ Hread), Hread.
  - by destruct (is_EnvironmentError e).
Qed.

(** X10.  Once the package is found, neither loader ever raises an
    [EnvironmentError]. *)
Theorem environment_errors_never_escape (w : World)
    (package_name file_path dir : string) (e : exn) :
  get_package_share_directory w package_name = Ok dir ->
  load_file w package_name file_path = Raise e
  ∨ load_yaml w package_name file_path = Raise e ->
  is_EnvironmentError e = false.
Proof.
  intros Hdir.
  rewrite (load_file_found _ _ _ _ Hdir), (load_yaml_found _ _ _ _ Hdir).
  destruct (open_r w _) as [file|e0]; cbn.
  - destruct (read file) as [text|e1]; cbn;
      destruct (yaml_safe_load w file) as [v|e2]; cbn;
      try destruct (is_EnvironmentError e1) eqn:He1;
      try destruct (is_EnvironmentError e2) eqn:He2;
      by intros [?|?]; simplify_eq.
  - destruct (is_EnvironmentError e0) eqn:He0; by intros [?|?]; simplify_eq.
Qed.

(** X11.  [generate_launch_description] raises [e] exactly when [e] is the
    first exception among its five loads, taken in source order, or all
    five return and the [Node] constructor raises [e]. *)
Theorem generate_launch_description_Raise_iff (w : World) (e : exn) :
  generate_launch_description w = Raise e
  <-> first_raise (launch_loads w) = Some e
      ∨ ∃ rd rds k g m,
          launch_loads w = [Ok rd; Ok rds; Ok k; Ok g; Ok m]
          ∧ Node_raises w (grasps_demo_args rd rds k g m) = Some e.
Proof.
  rewrite generate_launch_description_unfold. unfold launch_loads, Node_new.
  destruct (load_file w "moveit_resources_panda_description" _) as [rd|e1]; cbn;
    [| split; [intros [= ->]; by left | intros [[= ->]|(?&?&?&?&?&[=]&_)]; done]].
  destruct (load_file w "moveit_resources_panda_moveit_config" _) as [rds|e2]; cbn;
    [| split; [intros [= ->]; by left | intros [[= ->]|(?&?&?&?&?&[=]&_)]; done]].
  destruct (load_yaml w "moveit_resources_panda_moveit_config" _) as [k|e3]; cbn;
    [| split; [intros [= ->]; by left | intros [[= ->]|(?&?&?&?&?&[=]&_)]; done]].
  destruct (load_yaml w "moveit_grasps" "config_robot/panda_grasp_data.yaml") as [g|e4]; cbn;
    [| split; [intros [= ->]; by left | intros [[= ->]|(?&?&?&?&?&[=]&_)]; done]].
  destruct (load_yaml w "moveit_grasps" "config/moveit_grasps_config.yaml") as [m|e5]; cbn;
    [| split; [intros [= ->]; by left | intros [[= ->]|(?&?&?&?&?&[=]&_)]; done]].
  destruct (Node_raises w _) as [e6|] eqn:Hnode; cbn; split.
  - intros [= ->]. right. by exists rd, rds, k, g, m.
  - intros [[=]|(?&?&?&?&?&[= <- <- <- <- <-]&Hn)]. congruence.
  - done.
  - intros [[=]|(?&?&?&?&?&[= <- <- <- <- <-]&Hn)]. congruence.
Qed.

Lemma load_file_model_value (w : World) (package_name file_path : string) (v : value) :
  load_file w package_name file_path = Ok v -> model_value w package_name file_path v.
Proof.
  unfold load_file, model_value, cannot_load, opens_with_text.
  destruct (get_package_share_directory w package_name) as [dir|e] eqn:Hdir; cbn; [|done].
  destruct (open_r w _) as [file|e] eqn:Hopen; cbn.
  - destruct (read file) as [text|e] eqn:Hread; cbn.
    + intros [= <-]. right. exists text. split; [done|]. by exists dir, file.
    + destruct (is_EnvironmentError e); [|done]. intros [= <-]. left.
      split; [done|]. right. exists dir. split; [done|]. right. by exists file, e.
  - destruct (is_EnvironmentError e); [|done]. intros [= <-]. left.
    split; [done|]. right. exists dir. split; [done|]. left. by exists e.
Qed.

(** X12.  In a launch description that is returned, the values of
    [robot_description] and [robot_description_semantic] are each the text
    the model file reads as, or [None] with the file impossible to load. *)
Theorem model_parameters_are_file_text (w : World) (ld : LaunchDescription) :
  generate_launch_description w = Ok ld ->
  ∃ n rd rds,
    entities ld = [n]
    ∧ parameters n !! 0%nat = Some (VDict {[ "robot_description" := rd ]})
    ∧ parameters n !! 1%nat = Some (VDict {[ "robot_description_semantic" := rds ]})
    ∧ model_value w "moveit_resources_panda_description" "urdf/panda.urdf" rd
    ∧ model_value w "moveit_resources_panda_moveit_config" "config/panda.srdf" rds.
Proof.
  intros H. apply generate_launch_description_Ok in H
    as (rd & rds & k & g & m & (Hrd & Hrds & _) & ->).
  exists (grasps_demo_args rd rds k g m), rd, rds.
  repeat split; try done; by apply load_file_model_value.
Qed.

Lemma load_file_agree (files : list (string * string)) (w w' : World)
    (package_name file_path : string) :
  agree_on files w w' -> (package_name, file_path) ∈ files ->
  load_file w package_name file_path = load_file w' package_name file_path.
Proof.
  intros (Hdir & Hjoin & _ & _ & Hopen) Hin. unfold load_file.
  rewrite <-Hdir.
  destruct (get_package_share_directory w package_name) as [dir|e] eqn:Hfound; cbn; [|done].
  by rewrite <-Hjoin, <-(Hopen _ _ _ Hin Hfound).
Qed.

Lemma load_yaml_agree (files : list (string * string)) (w w' : World)
    (package_name file_path : string) :
  agree_on files w w' -> (package_name, file_path) ∈ files ->
  load_yaml w package_name file_path = load_yaml w' package_name file_path.
Proof.
  intros (Hdir & Hjoin & Hyaml & _ & Hopen) Hin. unfold load_yaml.
  rewrite <-Hdir.
  destruct (get_package_share_directory w package_name) as [dir|e] eqn:Hfound; cbn; [|done].
  rewrite <-Hjoin, <-(Hopen _ _ _ Hin Hfound).
  destruct (open_r w _) as [file|e]; cbn; [|done]. by rewrite Hyaml.
Qed.

(** X13.  [generate_launch_description] opens no file but its five: on two
    platforms that differ only in what [open] does elsewhere it gives the
    same result. *)
Theorem reads_only_config_files (w w' : World) :
  agree_on config_files w w' ->
  generate_launch_description w = generate_launch_description w'.
Proof.
  intros Hagree. rewrite !generate_launch_description_unfold.
  rewrite !(load_file_agree config_files w w'), !(load_yaml_agree config_files w w')
    by (done || (unfold config_files; set_solver)).
  destruct Hagree as (_ & _ & _ & Hnode & _).
  destruct (load_file w' "moveit_resources_panda_description" _); cbn; [|done].
  destruct (load_file w' "moveit_resources_panda_moveit_config" _); cbn; [|done].
  destruct (load_yaml w' "moveit_resources_panda_moveit_config" _); cbn; [|done].
  destruct (load_yaml w' "moveit_grasps" "config_robot/panda_grasp_data.yaml"); cbn; [|done].
  destruct (load_yaml w' "moveit_grasps" "config/moveit_grasps_config.yaml"); cbn; [|done].
  unfold Node_new. by rewrite Hnode.
Qed.

(** X14.  If the lookup of any of the three packages raises,
    [generate_launch_description] raises and returns no launch
    description. *)
Theorem uninstalled_package_raises (w : World) (package_name : string) (e : exn) :
  package_name ∈ launch_packages ->
  get_package_share_directory w package_name = Raise e ->
  ∃ e', generate_launch_description w = Raise e'.
Proof.
  intros Hin Hlookup.
  destruct (generate_launch_description w) as [ld|e'] eqn:Hld; [|eauto].
  apply generate_launch_description_Ok in Hld
    as (rd & rds & k & g & m & (Hrd & Hrds & Hk & Hg & Hm & _) & _).
  unfold launch_packages in Hin.
  apply elem_of_cons in Hin as [->|Hin].
  { by rewrite (load_file_lookup_Raise _ _ _ _ Hlookup) in Hrd. }
  apply elem_of_cons in Hin as [->|Hin].
  { by rewrite (load_file_lookup_Raise _ _ _ _ Hlookup) in Hrds. }
  apply elem_of_cons in Hin as [->|Hin].
  { by rewrite (load_yaml_lookup_Raise _ _ _ _ Hlookup) in Hg. }
  by apply elem_of_nil in Hin.
Qed.

(** *** The properties above, on concrete platforms *)


Lemma lookup_error_propagates_witness :
  load_file (disk_world blank_disk) "moveit_resources_panda_description" "urdf/panda.urdf"
    = Raise (PackageNotFoundError "moveit_resources_panda_description")
  ∧ load_yaml (disk_world blank_disk) "moveit_resources_panda_description" "urdf/panda.urdf"
    = Raise (PackageNotFoundError "moveit_resources_panda_description").
Proof. apply lookup_error_propagates. reflexivity. Defined.

Lemma load_file_value_shape_witness :
  VStr "<robot name='panda'/>" = VNone
  ∨ ∃ text, VStr "<robot name='panda'/>" = VStr text.
Proof.
  apply (load_file_value_shape (disk_world full_disk)
           "moveit_resources_panda_description" "urdf/panda.urdf").
  vm_compute; reflexivity.
Defined.




Lemma environment_errors_never_escape_witness :
  load_file undecodable_world "moveit_grasps" "config/moveit_grasps_config.yaml"
    = Raise UnicodeDecodeError
  ∧ is_EnvironmentError UnicodeDecodeError = false.
Proof.
  assert (load_file undecodable_world "moveit_grasps" "config/moveit_grasps_config.yaml"
          = Raise UnicodeDecodeError) as Hraise by (vm_compute; reflexivity).
  split; [exact Hraise |].
  apply (environment_errors_never_escape undecodable_world
           "moveit_grasps" "config/moveit_grasps_config.yaml" "/share/moveit_grasps").
  - vm_compute; reflexivity.
  - left. exact Hraise.
Defined.

Lemma model_parameters_are_file_text_witness :
  generate_launch_description (disk_world full_disk) = Ok full_disk_launch
  ∧ ∃ n rd rds,
      entities full_disk_launch = [n]
      ∧ parameters n !! 0%nat = Some (VDict {[ "robot_description" := rd ]})
      ∧ parameters n !! 1%nat = Some (VDict {[ "robot_description_semantic" := rds ]})
      ∧ model_value (disk_world full_disk)
          "moveit_resources_panda_description" "urdf/panda.urdf" rd
      ∧ model_value (disk_world full_disk)
          "moveit_resources_panda_moveit_config" "config/panda.srdf" rds.
Proof.
  assert (generate_launch_description (disk_world full_disk) = Ok full_disk_launch) as Hld
    by (vm_compute; reflexivity).
  split; [exact Hld |].
  exact (model_parameters_are_file_text _ _ Hld).
Defined.

Lemma disk_reads_whole (d : Disk) (package_name file_path : string) :
  reads_whole (disk_world d) package_name file_path.
Proof.
  intros dir file _ Hopen. cbn in Hopen.
  destruct (files d !! posix_join dir file_path); by simplify_eq.
Qed.


Lemma load_yaml_is_load_file_then_parse_witness :
  load_file (disk_world full_disk)
    "moveit_resources_panda_moveit_config" "config/kinematics.yaml"
    = Ok (VStr "panda_arm: {}")
  ∧ load_yaml (disk_world full_disk)
      "moveit_resources_panda_moveit_config" "config/kinematics.yaml"
    = parse_loaded (disk_world full_disk) (VStr "panda_arm: {}").
Proof.
  assert (load_file (disk_world full_disk)
            "moveit_resources_panda_moveit_config" "config/kinematics.yaml"
          = Ok (VStr "panda_arm: {}")) as Hfile by (vm_compute; reflexivity).
  split; [exact Hfile |].
  rewrite (load_yaml_is_load_file_then_parse (disk_world full_disk) _ _
             (disk_reads_whole _ _ _)).
  by rewrite Hfile.
Defined.

(** A stream that fails after a text with a syntax error: [load_file]
    raises the stream's exception, [load_yaml] the parser's. *)
Example syntax_error_before_read_error :
  load_file early_syntax_error_world "moveit_grasps" "config/moveit_grasps_config.yaml"
    = Raise UnicodeDecodeError
  ∧ load_yaml early_syntax_error_world "moveit_grasps" "config/moveit_grasps_config.yaml"
    = Raise (YAMLError "did not find expected node content").
Proof. split; vm_compute; reflexivity. Qed.

Lemma bare_cluttered_agree :
  agree_on config_files (disk_world bare_disk) (disk_world cluttered_disk).
Proof.
  repeat split; try reflexivity.
  intros package_name file_path dir Hin Hdir.
  unfold config_files in Hin.
  repeat (apply elem_of_cons in Hin as [[= -> ->]|Hin];
          [vm_compute in Hdir; injection Hdir as <-; vm_compute; reflexivity |]).
  by apply elem_of_nil in Hin.
Qed.

Lemma reads_only_config_files_witness :
  files bare_disk ≠ files cluttered_disk
  ∧ generate_launch_description (disk_world bare_disk)
    = generate_launch_description (disk_world cluttered_disk).
Proof.
  split.
  - intros Heq.
    assert (files bare_disk !! "/share/moveit_grasps/config/other.yaml"
            = files cluttered_disk !! "/share/moveit_grasps/config/other.yaml") as Hlook
      by (by rewrite Heq).
    vm_compute in Hlook. discriminate.
  - apply reads_only_config_files. exact bare_cluttered_agree.
Defined.

Lemma uninstalled_package_raises_witness :
  ∃ e', generate_launch_description (disk_world blank_disk) = Raise e'.
Proof.
  apply (uninstalled_package_raises _ "moveit_grasps" (PackageNotFoundError "moveit_grasps")).
  - unfold launch_packages. set_solver.
  - reflexivity.
Defined.

(** An I/O error while reading is an [EnvironmentError] like a missing
    file: both loaders return [None]. *)
Example read_error_is_None :
  load_file io_error_world "moveit_grasps" "config/moveit_grasps_config.yaml" = Ok VNone
  ∧ load_yaml io_error_world "moveit_grasps" "config/moveit_grasps_config.yaml" = Ok VNone.
Proof. split; vm_compute; reflexivity. Qed.

End LoaderFacts.

(* ===================================================================== *)
(** * Properties of the filter pipeline                                   *)
(* ===================================================================== *)

Import FilterPipeline.

Section PipelineFacts.
Context {Pose Joints Scene Thresholds : Type}.
Context `{!Services Pose Joints Scene Thresholds}.

Implicit Types (c : GraspCandidate Pose Joints) (scene : Scene)
  (config : FilterPipelineConfig Thresholds) (stages : list Stage).

(** *** Stages keep the candidate's identity *)

Lemma ik_chain_id with_collision scene order c :
  id (updated (ik_chain with_collision scene order c).2) = id c.
Proof.
  revert c. induction order as [|k rest IH]; intros c; [done|].
  cbn. destruct (solve _ _) as [q| |]; [|done..].
  destruct with_collision; cbn.
  - destruct (is_in_collision q scene); cbn; [done|].
    specialize (IH (set_ik_solution k q c)).
    destruct (ik_chain true scene rest _) as [log v]. exact IH.
  - specialize (IH (set_ik_solution k q c)).
    destruct (ik_chain false scene rest _) as [log v]. exact IH.
Qed.

Lemma evaluate_id s c scene config :
  id (updated (evaluate s c scene config).2) = id c.
Proof.
  destruct s; unfold evaluate; try apply ik_chain_id; by repeat case_match.
Qed.

Lemma stage_chain_id k stages scene config c :
  id (stage_chain k stages scene config c).2.1 = id c.
Proof.
  revert k c. induction stages as [|s rest IH]; intros k c; [done|].
  cbn. pose proof (evaluate_id s c scene config) as Hid.
  destruct (evaluate s c scene config) as [log v]; cbn in *.
  destruct (pass v); cbn; [|done].
  specialize (IH (S k) (set_status (PassedStage k) (updated v))).
  destruct (stage_chain _ rest _ _ _) as [log' [c' vs]]; cbn in *. congruence.
Qed.

Lemma stage_chain_terminal k stages scene config c :
  is_terminal (status (stage_chain k stages scene config c).2.1) = true.
Proof.
  revert k c. induction stages as [|s rest IH]; intros k c; [done|].
  cbn. destruct (evaluate s c scene config) as [log v]; cbn.
  destruct (pass v); cbn; [|done].
  specialize (IH (S k) (set_status (PassedStage k) (updated v))).
  by destruct (stage_chain _ rest _ _ _) as [log' [c' vs]].
Qed.

Lemma settle_id stages scene config abort i c :
  id (annotated (settle stages scene config abort i c)) = id c.
Proof.
  unfold settle, traverse. destruct (cancelled_at abort i); [done|].
  pose proof (stage_chain_id 0 stages scene config c) as Hid.
  by destruct (stage_chain _ _ _ _ _) as [log [c' vs]].
Qed.

Lemma settle_terminal stages scene config abort i c :
  is_terminal (status (annotated (settle stages scene config abort i c))) = true.
Proof.
  unfold settle, traverse. destruct (cancelled_at abort i); [done|].
  pose proof (stage_chain_terminal 0 stages scene config c) as Ht.
  by destruct (stage_chain _ _ _ _ _) as [log [c' vs]].
Qed.

Lemma sequential_ids stages scene config abort i queue :
  id <$> (annotated <$> sequential stages scene config abort i queue) = id <$> queue.
Proof.
  revert i. induction queue as [|c queue IH]; intros i; [done|].
  cbn. by rewrite settle_id, IH.
Qed.

Lemma sequential_terminal stages scene config abort i queue :
  Forall (fun r => is_terminal (status (annotated r)) = true)
         (sequential stages scene config abort i queue).
Proof.
  revert i. induction queue as [|c queue IH]; intros i; constructor;
    [apply settle_terminal | apply IH].
Qed.

(** *** The pool loses and duplicates nothing *)

Lemma concat_alter_snoc {A} (pool : list (list A)) (w : nat) (r : A) :
  (w < length pool)%nat ->
  concat (alter (fun done => (done ++ [r])%list) w pool) ≡ₚ r :: concat pool.
Proof.
  revert w. induction pool as [|done pool IH]; intros w Hw; cbn in *; [lia|].
  destruct w as [|w]; cbn.
  - rewrite <-(assoc_L app). cbn.
    by rewrite <-Permutation_middle.
  - rewrite IH by lia. by rewrite Permutation_middle.
Qed.

Lemma concat_replicate_nil {A} (n : nat) : concat (replicate n (@nil A)) = [].
Proof. induction n; [done | by cbn]. Qed.

Lemma drain_sequential stages scene config worker_count abort sched i queue
    (pool : list (list (Traversal (Pose:=Pose) (Joints:=Joints)))) :
  (0 < worker_count)%nat ->
  length pool = worker_count ->
  concat (drain stages scene config worker_count abort sched i queue pool)
  ≡ₚ (concat pool ++ sequential stages scene config abort i queue)%list.
Proof.
  intros Hpos. revert i pool.
  induction queue as [|c queue IH]; intros i pool Hlen; cbn.
  - by rewrite app_nil_r.
  - rewrite IH by (by rewrite length_alter).
    rewrite concat_alter_snoc.
    + cbn. apply Permutation_middle.
    + rewrite Hlen. apply Nat.mod_upper_bound. lia.
Qed.

Lemma drain_no_worker stages scene config abort sched i queue :
  drain stages scene config 0 abort sched i queue [] = [].
Proof. revert i. induction queue as [|c queue IH]; intros i; [done | apply IH]. Qed.

Lemma run_sequential candidates stages scene config worker_count abort sched :
  (0 < worker_count)%nat ->
  concat (drain stages scene config worker_count abort sched 0 candidates
                (replicate worker_count []))
  ≡ₚ sequential stages scene config abort 0 candidates.
Proof.
  intros Hpos. rewrite drain_sequential; [| done | by rewrite length_replicate].
  by rewrite concat_replicate_nil.
Qed.

(** *** Counting identifiers *)

Lemma occurrences_count_id i (cs : list (GraspCandidate Pose Joints)) :
  occurrences i cs = count_id i (id <$> cs).
Proof.
  unfold occurrences, count_id. induction cs as [|c cs IH]; [done|].
  cbn. case_bool_decide; cbn; by rewrite IH.
Qed.

Lemma count_id_Permutation i (ids1 ids2 : list nat) :
  ids1 ≡ₚ ids2 -> count_id i ids1 = count_id i ids2.
Proof.
  unfold count_id. induction 1 as [|j ?? _ IH|j1 j2 ?|??? _ IH1 _ IH2]; cbn.
  - done.
  - case_bool_decide; cbn; by rewrite IH.
  - by repeat case_bool_decide.
  - congruence.
Qed.

Lemma count_id_absent i (ids : list nat) : i ∉ ids -> count_id i ids = 0%nat.
Proof.
  unfold count_id. induction ids as [|j ids IH]; intros Hi; [done|].
  apply not_elem_of_cons in Hi as [Hne Hi]. cbn.
  case_bool_decide; [congruence | by apply IH].
Qed.

Lemma count_id_NoDup i (ids : list nat) :
  NoDup ids -> i ∈ ids -> count_id i ids = 1%nat.
Proof.
  induction 1 as [|j ids Hj Hnd IH]; intros Hi.
  - by apply elem_of_nil in Hi.
  - unfold count_id. cbn. case_bool_decide as Heq.
    + subst j. cbn. f_equal. by apply count_id_absent.
    + apply elem_of_cons in Hi as [->|Hi]; [done | by apply IH].
Qed.

(** C4.  Whatever the schedule, the stage outcomes and the cancellation
    point, and with at least one worker in the pool: every identifier
    occurs in the output as often as in the input (once, the input
    identifiers being distinct), never more and never less, and every
    output candidate has a terminal status. *)
Theorem every_candidate_exactly_once
    (candidates : list (GraspCandidate Pose Joints)) stages scene config
    (worker_count : nat) (abort : option nat) (sched : nat -> nat) :
  (0 < worker_count)%nat ->
  let out := (run candidates stages scene config worker_count abort sched).1 in
  (∀ i, occurrences i out = occurrences i candidates)
  ∧ Forall (fun c => is_terminal (status c) = true) out
  ∧ (NoDup (id <$> candidates) ->
     ∀ c, c ∈ candidates -> occurrences (id c) out = 1%nat).
Proof.
  intros Hpos out.
  pose proof (run_sequential candidates stages scene config worker_count abort sched Hpos)
    as Hperm.
  assert (id <$> out ≡ₚ id <$> candidates) as Hids.
  { subst out. unfold run. cbn [fst]. rewrite Hperm. by rewrite sequential_ids. }
  split; [|split].
  - intros i. rewrite !occurrences_count_id. by apply count_id_Permutation.
  - subst out. unfold run. cbn [fst]. rewrite Hperm.
    apply Forall_fmap. apply sequential_terminal.
  - intros Hnd c Hc. rewrite occurrences_count_id.
    rewrite (count_id_Permutation _ _ _ Hids).
    apply count_id_NoDup; [done|]. by apply list_elem_of_fmap_2.
Qed.

(** C5.  A run on no candidates returns no candidates and statistics that
    are zero throughout. *)
Theorem empty_run_all_zero stages scene config
    (worker_count : nat) (abort : option nat) (sched : nat -> nat) :
  run (@nil (GraspCandidate Pose Joints)) stages scene config worker_count abort sched
  = ([], all_zero stages).
Proof.
  unfold run. cbn [drain]. rewrite concat_replicate_nil.
  unfold aggregate, all_zero. cbn. f_equal. f_equal. apply imap_const.
Qed.

(** C6.  The IKFeasibilityFilter takes the poses in the order pregrasp,
    grasp, lift and stops at the first one without a solution: if the poses
    [pre] before [k] are solved and [k] is not, IK is attempted for [pre]
    and [k] and for nothing else, the stage fails, and the [ik_solution] of
    [k] and of every later pose is what it was on entry (unset, for a
    candidate that comes in unsolved). *)
Theorem ik_feasibility_short_circuit c scene config
    (pre : list PoseKind) (k : PoseKind) (post : list PoseKind) :
  ik_order = (pre ++ k :: post)%list ->
  Forall (fun p => is_solution (solve (pose_of p c) (ik_solution p c)) = true) pre ->
  is_solution (solve (pose_of k c) (ik_solution k c)) = false ->
  let '(log, v) := evaluate IKFeasibilityFilter c scene config in
  log = IKAttempt <$> (pre ++ [k])%list
  ∧ ik_attempts log = (pre ++ [k])%list
  ∧ pass v = false
  ∧ Forall (fun p => ik_solution p (updated v) = ik_solution p c) (k :: post).
Proof.
  unfold ik_order. intros Horder Hpre Hk.
  destruct pre as [|p1 [|p2 [|p3 pre]]]; simplify_eq/=.
  - destruct (solve (pregrasp_pose c) (ik_pregrasp c)); [done | ..];
      by repeat split; repeat constructor.
  - apply Forall_cons in Hpre as [H1 _]. cbn in H1.
    destruct (solve (pregrasp_pose c) (ik_pregrasp c)) as [q1| |]; [|done..]. cbn.
    destruct (solve (grasp_pose c) (ik_grasp c)); [done | ..];
      by repeat split; repeat constructor.
  - apply Forall_cons in Hpre as [H1 Hpre]. apply Forall_cons in Hpre as [H2 _].
    cbn in H1, H2.
    destruct (solve (pregrasp_pose c) (ik_pregrasp c)) as [q1| |]; [|done..]. cbn.
    destruct (solve (grasp_pose c) (ik_grasp c)) as [q2| |]; [|done..]. cbn.
    destruct (solve (lift_pose c) (ik_lift c)); [done | ..];
      by repeat split; repeat constructor.
  - by destruct pre.
Qed.

(** A failing stage ends the chain: the stages after it are not evaluated,
    so the adapter calls made for the candidate are those of the stages up
    to the failing one. *)
Lemma stage_chain_stops k s rest scene config c :
  pass (evaluate s c scene config).2 = false ->
  stage_chain k (s :: rest) scene config c
  = ((evaluate s c scene config).1,
     (set_status (RejectedAt (stage_name s)
                    (default "" (reason_if_failed (evaluate s c scene config).2)))
                 (updated (evaluate s c scene config).2),
      [false])).
Proof.
  intros Hfail. cbn [stage_chain].
  destruct (evaluate s c scene config) as [log v]; cbn in *.
  rewrite Hfail. cbn. by rewrite app_nil_r.
Qed.

(** *** Statistics do not depend on the order of the results *)

Lemma count_where_Permutation (P : Traversal (Pose:=Pose) (Joints:=Joints) -> bool)
    (rs1 rs2 : list Traversal) :
  rs1 ≡ₚ rs2 -> count_where P rs1 = count_where P rs2.
Proof.
  unfold count_where. induction 1 as [|r ?? _ IH|r1 r2 ?|??? _ IH1 _ IH2]; cbn.
  - done.
  - destruct (P r); cbn; by rewrite IH.
  - by destruct (P r1), (P r2).
  - congruence.
Qed.

Lemma aggregate_Permutation stages
    (rs1 rs2 : list (Traversal (Pose:=Pose) (Joints:=Joints))) :
  rs1 ≡ₚ rs2 -> aggregate stages rs1 = aggregate stages rs2.
Proof.
  intros Hperm. unfold aggregate. f_equal.
  - by rewrite Hperm.
  - apply imap_ext. intros k s _.
    by rewrite !(count_where_Permutation _ _ _ Hperm).
Qed.

(** C7.  Two runs on the same candidates, stages, snapshot, configuration,
    pool size and cancellation point give the same annotated candidates
    (hence the same status for each candidate) up to the order in which
    they are emitted, and the same statistics, however the two runs were
    scheduled. *)
Theorem run_idempotent
    (candidates : list (GraspCandidate Pose Joints)) stages scene config
    (worker_count : nat) (abort : option nat) (sched1 sched2 : nat -> nat) :
  let run1 := run candidates stages scene config worker_count abort sched1 in
  let run2 := run candidates stages scene config worker_count abort sched2 in
  run1.1 ≡ₚ run2.1
  ∧ (fun c => (id c, status c)) <$> run1.1 ≡ₚ (fun c => (id c, status c)) <$> run2.1
  ∧ run1.2 = run2.2.
Proof.
  intros run1 run2. subst run1 run2. unfold run. cbn [fst snd].
  assert (concat (drain stages scene config worker_count abort sched1 0 candidates
                        (replicate worker_count []))
          ≡ₚ concat (drain stages scene config worker_count abort sched2 0 candidates
                           (replicate worker_count []))) as Hperm.
  { destruct worker_count as [|n].
    - cbn [replicate]. by rewrite !drain_no_worker.
    - rewrite !run_sequential by lia. done. }
  split; [by rewrite Hperm|]. split; [by rewrite Hperm|].
  by apply aggregate_Permutation.
Qed.

End PipelineFacts.

(** The example of the design, on two workers taking turns: one candidate
    rejected at the cutting plane, one valid, one rejected for a collision at
    its lift pose; per-stage pass counts 2, 2, 2, 1. *)
Example design_example :
  let '(out, stats) := run demo_candidates demo_stages demo_scene demo_config 2 None round_robin in
  (fun c => (id c, status c)) <$> out
  = [(1%nat, RejectedAt "CuttingPlaneFilter" "crosses_cutting_plane");
     (3%nat, RejectedAt "IKWithCollisionFilter" "lift_pose_collision");
     (2%nat, Valid)]
  ∧ candidates_attempted stats = 3%nat
  ∧ (fun sc => (sc.1, passed sc.2)) <$> per_stage stats
    = [(CuttingPlaneFilter, 2%nat); (ApproachDirectionFilter, 2%nat);
       (IKFeasibilityFilter, 2%nat); (IKWithCollisionFilter, 1%nat)].
Proof. vm_compute. by repeat split. Qed.

Lemma ik_feasibility_short_circuit_witness :
  let c := candidate 1 12 150 30 in
  evaluate IKFeasibilityFilter c demo_scene demo_config
  = ([IKAttempt Pregrasp; IKAttempt Grasp],
     fails (set_ik_solution Pregrasp 1012%nat c) "grasp_pose_unreachable")
  ∧ ik_grasp (set_ik_solution Pregrasp 1012%nat c) = None
  ∧ ik_lift (set_ik_solution Pregrasp 1012%nat c) = None.
Proof.
  intros c.
  pose proof (ik_feasibility_short_circuit c demo_scene demo_config
                [Pregrasp] Grasp [Lift] eq_refl) as Hshort.
  assert (Forall (fun p => is_solution (solve (pose_of p c) (ik_solution p c)) = true)
                 [Pregrasp]) as Hpre by (repeat constructor).
  specialize (Hshort Hpre eq_refl).
  split; [reflexivity |].
  change (evaluate IKFeasibilityFilter c demo_scene demo_config)
    with ([IKAttempt Pregrasp; IKAttempt Grasp],
          fails (set_ik_solution Pregrasp 1012%nat c) "grasp_pose_unreachable")
    in Hshort.
  destruct Hshort as (_ & _ & _ & Hkept).
  apply Forall_cons in Hkept as [Hgrasp Hkept].
  apply Forall_cons in Hkept as [Hlift _].
  exact (conj Hgrasp Hlift).
Defined.

(** A candidate whose IK times out is rejected with that reason, and the
    run goes on to the candidates after it. *)
Example timeout_is_a_rejection :
  (fun c => (id c, status c))
    <$> (run timeout_candidates demo_stages demo_scene demo_config 3 None (fun _ => 0%nat)).1
  = [(1%nat, RejectedAt "CuttingPlaneFilter" "crosses_cutting_plane");
     (2%nat, Valid);
     (3%nat, RejectedAt "IKWithCollisionFilter" "lift_pose_collision");
     (4%nat, RejectedAt "IKFeasibilityFilter" "ik_timeout")].
Proof. vm_compute. reflexivity. Qed.

Lemma every_candidate_exactly_once_witness :
  let out := (run timeout_candidates demo_stages demo_scene demo_config 2 None
                  round_robin).1 in
  (0 < 2)%nat
  ∧ (∀ i, occurrences i out = occurrences i timeout_candidates)
  ∧ Forall (fun c => is_terminal (status c) = true) out
  ∧ (∀ c, c ∈ timeout_candidates -> occurrences (id c) out = 1%nat).
Proof.
  intros out.
  assert (0 < 2)%nat as Hpos by lia.
  destruct (every_candidate_exactly_once timeout_candidates demo_stages demo_scene
              demo_config 2 None round_robin Hpos) as (Hocc & Hterm & Honce).
  assert (NoDup (id <$> timeout_candidates)) as Hnd.
  { apply (bool_decide_unpack _). vm_compute. exact I. }
  exact (conj Hpos (conj Hocc (conj Hterm (Honce Hnd)))).
Defined.
